(** * internal/request: typed query inference and the Validate pipeline

    A shallow embedding of [src/internal/request/request.go].

    - [strconv]: the three parsers of Go's standard library that the
      inference loop calls ([Atoi], [ParseFloat] at 64 bits, [ParseBool]).
    - [url]: the part of [net/url] that builds the [Values] of a request.
    - [Request], [inferValue], [ParseQuery]: lines 23-57 of the source.
    - [Validate]: lines 59-98, as a state transformer over the memory
      reachable from the receiver and the target, the request and an
      execution log. *)

From Stdlib Require Import ZArith Ascii String List Lia.
From Stdlib Require Import Floats.SpecFloat.
From stdpp Require Import base option gmap strings list fin_maps.

Local Open Scope string_scope.
Local Open Scope Z_scope.
Local Open Scope list_scope.

(** ** Go's [strconv], as far as [ParseQuery] uses it

    The package belongs to the Go standard library, not to the
    repository.  The definitions follow the library: [ParseBool] is its
    table of spellings, [Atoi] is [ParseInt] in base 10 at the width of
    [int], and [ParseFloat] reads the text as the library's [special]
    and [readFloat] do and converts it to the nearest binary64. *)

Module strconv.

(** The two causes a [*NumError] carries. *)
Inductive NumError : Type := ErrSyntax | ErrRange.

(** [int] is 64 bits wide on the platforms the service is built for. *)
Definition IntSize : Z := 64.

Definition byte_of (c : ascii) : Z := Z.of_N (N_of_ascii c).

Definition is_digit (c : ascii) : bool :=
  (byte_of "0" <=? byte_of c) && (byte_of c <=? byte_of "9").

(** [lower(c)] is [c | ('x' - 'X')]. *)
Definition lower (c : ascii) : Z := Z.lor (byte_of c) 32.

Definition is_hex_letter (c : ascii) : bool :=
  (byte_of "a" <=? lower c) && (lower c <=? byte_of "f").

(** *** ParseBool *)

Definition ParseBool (str : string) : bool + NumError :=
  if (str =? "1")%string || (str =? "t")%string || (str =? "T")%string
     || (str =? "true")%string || (str =? "TRUE")%string
     || (str =? "True")%string
  then inl true
  else if (str =? "0")%string || (str =? "f")%string || (str =? "F")%string
          || (str =? "false")%string || (str =? "FALSE")%string
          || (str =? "False")%string
  then inl false
  else inr ErrSyntax.

(** *** Atoi

    [Atoi s] is [ParseInt(s, 10, 0)]: an optional sign, then
    [ParseUint] in base 10 (one or more decimal digits, no underscores),
    then the range check against [1 << (IntSize-1)].  The fast path of
    the library for short inputs computes the same result. *)

Fixpoint digits_from (acc : Z) (s : list ascii) : option Z :=
  match s with
  | [] => Some acc
  | c :: s' =>
      if is_digit c
      then digits_from (acc * 10 + (byte_of c - byte_of "0")) s'
      else None
  end.

Definition ParseUint10 (s : list ascii) : option Z :=
  match s with
  | [] => None
  | _ => digits_from 0 s
  end.

Definition ParseInt10 (s : list ascii) : Z + NumError :=
  match s with
  | [] => inr ErrSyntax
  | c :: s' =>
      let '(neg, body) :=
        if Ascii.eqb c "+" then (false, s')
        else if Ascii.eqb c "-" then (true, s')
        else (false, s) in
      match ParseUint10 body with
      | None => inr ErrSyntax
      | Some un =>
          let cutoff := Z.shiftl 1 (IntSize - 1) in
          if negb neg && (cutoff <=? un) then inr ErrRange
          else if neg && (cutoff <? un) then inr ErrRange
          else inl (if neg then - un else un)
      end
  end.

Definition Atoi (s : string) : Z + NumError :=
  ParseInt10 (list_ascii_of_string s).

(** *** ParseFloat (bitSize 64)

    The value is an IEEE 754 binary64 number, carried as a
    [spec_float] with [prec = 53] and [emax = 1024]. *)

Definition float64 : Type := spec_float.
Definition prec : Z := 53.
Definition emax : Z := 1024.

(** [commonPrefixLenIgnoreCase]: upper-case letters of [s] are folded,
    the prefix is given in lower case. *)
Fixpoint commonPrefixLenIgnoreCase (s pre : list ascii) : nat :=
  match s, pre with
  | c :: s', p :: pre' =>
      let b := byte_of c in
      let b' := if (byte_of "A" <=? b) && (b <=? byte_of "Z")
                then b + (byte_of "a" - byte_of "A") else b in
      if b' =? byte_of p then S (commonPrefixLenIgnoreCase s' pre') else O
  | _, _ => O
  end.

(** [special]: the infinities (optionally signed) and NaN (unsigned);
    returns the value and the number of bytes consumed. *)
Definition special_inf (sign : bool) (nsign : nat) (s : list ascii)
  : option (float64 * nat) :=
  let n := commonPrefixLenIgnoreCase s (list_ascii_of_string "infinity") in
  let n := if (3 <? n)%nat && (n <? 8)%nat then 3%nat else n in
  if (n =? 3)%nat || (n =? 8)%nat
  then Some (S754_infinity sign, (nsign + n)%nat) else None.

Definition special (s : list ascii) : option (float64 * nat) :=
  match s with
  | [] => None
  | c :: s' =>
      if Ascii.eqb c "+" then special_inf false 1 s'
      else if Ascii.eqb c "-" then special_inf true 1 s'
      else if Ascii.eqb c "i" || Ascii.eqb c "I" then special_inf false 0 s
      else if Ascii.eqb c "n" || Ascii.eqb c "N" then
        if (commonPrefixLenIgnoreCase s (list_ascii_of_string "nan") =? 3)%nat
        then Some (S754_nan, 3%nat) else None
      else None
  end.

(** State of the mantissa loop of [readFloat].  [mant] keeps every
    significant digit (the library keeps 19 and a truncation flag, and
    re-reads the text when that loses precision). *)
Record scan : Type := Scan {
  nd : Z;            (* significant digits seen *)
  dp : Z;            (* position of the point *)
  mant : Z;
  sawdot : bool;
  sawdigits : bool;
  underscores : bool
}.

Fixpoint mantissa_loop (base : Z) (st : scan) (s : list ascii)
  : scan * list ascii :=
  match s with
  | [] => (st, [])
  | c :: s' =>
      if Ascii.eqb c "_" then
        mantissa_loop base
          (Scan (nd st) (dp st) (mant st) (sawdot st) (sawdigits st) true) s'
      else if Ascii.eqb c "." then
        if sawdot st then (st, s)
        else mantissa_loop base
               (Scan (nd st) (nd st) (mant st) true (sawdigits st)
                  (underscores st)) s'
      else if is_digit c then
        if Ascii.eqb c "0" && (nd st =? 0) then
          mantissa_loop base
            (Scan (nd st) (dp st - 1) (mant st) (sawdot st) true
               (underscores st)) s'
        else
          mantissa_loop base
            (Scan (nd st + 1) (dp st)
               (mant st * base + (byte_of c - byte_of "0"))
               (sawdot st) true (underscores st)) s'
      else if (base =? 16) && is_hex_letter c then
        mantissa_loop base
          (Scan (nd st + 1) (dp st)
             (mant st * 16 + (lower c - byte_of "a" + 10))
             (sawdot st) true (underscores st)) s'
      else (st, s)
  end.

(** The digits of the exponent; the accumulator stops growing at
    10000, as in the library. *)
Fixpoint exponent_loop (e : Z) (us : bool) (s : list ascii)
  : Z * bool * list ascii :=
  match s with
  | [] => (e, us, [])
  | c :: s' =>
      if Ascii.eqb c "_" then exponent_loop e true s'
      else if is_digit c then
        exponent_loop
          (if e <? 10000 then e * 10 + (byte_of c - byte_of "0") else e)
          us s'
      else (e, us, s)
  end.

(** [underscoreOK]: an underscore stands between two digits, or between
    a base prefix and a digit. *)
Inductive seen : Type := SeenStart | SeenDigit | SeenUnderscore | SeenOther.

Fixpoint underscore_scan (hex : bool) (saw : seen) (s : list ascii) : bool :=
  match s with
  | [] => match saw with SeenUnderscore => false | _ => true end
  | c :: s' =>
      if is_digit c || (hex && is_hex_letter c)
      then underscore_scan hex SeenDigit s'
      else if Ascii.eqb c "_" then
        match saw with
        | SeenDigit => underscore_scan hex SeenUnderscore s'
        | _ => false
        end
      else
        match saw with
        | SeenUnderscore => false
        | _ => underscore_scan hex SeenOther s'
        end
  end.

Definition underscoreOK (s : list ascii) : bool :=
  let s := match s with
           | c :: s' => if Ascii.eqb c "-" || Ascii.eqb c "+" then s' else s
           | [] => s
           end in
  match s with
  | z :: b :: s' =>
      if Ascii.eqb z "0"
         && ((lower b =? byte_of "b") || (lower b =? byte_of "o")
             || (lower b =? byte_of "x"))
      then underscore_scan (lower b =? byte_of "x") SeenDigit s'
      else underscore_scan false SeenStart s
  | _ => underscore_scan false SeenStart s
  end.

(** What [readFloat] hands to the conversion. *)
Record parsed : Type := Parsed {
  p_mant : Z;        (* all significant digits, as an integer *)
  p_exp : Z;         (* power of 10, or of 2 for a hexadecimal literal *)
  p_neg : bool;
  p_hex : bool;
  p_rest : list ascii   (* the unread suffix, [s[i:]] *)
}.

Definition readFloat (s : list ascii) : option parsed :=
  match s with
  | [] => None
  | c0 :: s0 =>
      let '(neg, s1) :=
        if Ascii.eqb c0 "+" then (false, s0)
        else if Ascii.eqb c0 "-" then (true, s0)
        else (false, s) in
      let '(hex, s2) :=
        match s1 with
        | z :: x :: ((_ :: _) as t) =>
            if Ascii.eqb z "0" && (lower x =? byte_of "x")
            then (true, t) else (false, s1)
        | _ => (false, s1)
        end in
      let base := if hex then 16 else 10 in
      let expChar := if hex then byte_of "p" else byte_of "e" in
      let '(st, s3) :=
        mantissa_loop base (Scan 0 0 0 false false false) s2 in
      if negb (sawdigits st) then None
      else
        let dp0 := if sawdot st then dp st else nd st in
        let '(dp1, ndMant) :=
          if hex then (dp0 * 4, nd st * 4) else (dp0, nd st) in
        let finish (dp2 : Z) (us : bool) (rest : list ascii) :=
          let consumed := take (length s - length rest) s in
          if us && negb (underscoreOK consumed) then None
          else Some (Parsed (mant st)
                       (if mant st =? 0 then 0 else dp2 - ndMant)
                       neg hex rest) in
        match s3 with
        | c :: s4 =>
            if lower c =? expChar then
              match s4 with
              | [] => None
              | d :: s5 =>
                  let '(esign, s6) :=
                    if Ascii.eqb d "+" then (1, s5)
                    else if Ascii.eqb d "-" then (-1, s5)
                    else (1, s4) in
                  match s6 with
                  | f :: _ =>
                      if is_digit f then
                        let '(e, us, rest) :=
                          exponent_loop 0 (underscores st) s6 in
                        finish (dp1 + e * esign) us rest
                      else None
                  | [] => None
                  end
              end
            else if hex then None
            else finish dp1 (underscores st) s3
        | [] => if hex then None else finish dp1 (underscores st) s3
        end
  end.

(** The nearest binary64 to [mant * 10^exp] or [mant * 2^exp], ties to
    even: the conversion the library documents. *)
Definition to_float64 (p : parsed) : float64 :=
  match p_mant p with
  | Zpos m =>
      let signed := if p_neg p then Zneg m else Zpos m in
      if p_hex p then binary_normalize prec emax signed (p_exp p) (p_neg p)
      else if 0 <=? p_exp p then
        binary_normalize prec emax (signed * 10 ^ p_exp p) 0 (p_neg p)
      else
        SFdiv prec emax (S754_finite (p_neg p) m 0)
          (S754_finite false (Z.to_pos (10 ^ (- p_exp p))) 0)
  | _ => S754_zero (p_neg p)
  end.

Definition ParseFloat64 (s : string) : float64 + NumError :=
  let bytes := list_ascii_of_string s in
  match special bytes with
  | Some (val, n) =>
      if (n =? length bytes)%nat then inl val else inr ErrSyntax
  | None =>
      match readFloat bytes with
      | None => inr ErrSyntax
      | Some p =>
          match p_rest p with
          | _ :: _ => inr ErrSyntax
          | [] =>
              match to_float64 p with
              | S754_infinity _ => inr ErrRange
              | f => inl f
              end
          end
      end
  end.

(** [err != nil] for the result of a conversion. *)
Definition fails {A : Type} (res : A + NumError) : Prop :=
  match res with
  | inl _ => False
  | inr _ => True
  end.

End strconv.

(** ** Go's [net/url], as far as [ParseQuery] uses it *)

Module url.

(** [url.Values] is [map[string][]string]. *)
Abbreviation Values := (gmap string (list string)).

(** [v[key] = append(v[key], value)] *)
Definition Add (v : Values) (key value : string) : Values :=
  <[key := (default [] (v !! key) ++ [value])%list]> v.

(** A URL, carried as the [key=value] pairs that decoding its raw query
    yields, in order of appearance. *)
Record URL : Type := { pairs : list (string * string) }.

(** The [Query] method of a URL: every decoded pair is added to an
    empty [Values]. *)
Definition Query (u : URL) : Values :=
  foldl (fun v kv => Add v kv.1 kv.2) ∅ (pairs u).

(** The values a key is given in the URL, in order. *)
Fixpoint values_of (key : string) (ps : list (string * string))
  : list string :=
  match ps with
  | [] => []
  | (k, v) :: ps' =>
      if decide (k = key) then v :: values_of key ps' else values_of key ps'
  end.

End url.

(** ** Errors and the body stream *)

(** A Go [error] value: its dynamic type and its message. *)
Record error : Type := { dynamic_type : string; Error : string }.

Definition errors_New (text : string) : error :=
  {| dynamic_type := "*errors.errorString"; Error := text |}.

Module io.

(** An [io.ReadCloser]: the bytes still to be read, the fault that ends
    reading instead of EOF (if any), whether [Close] was called, and how
    many times the stream was read to its end. *)
Record ReadCloser : Type := {
  unread : list Byte.byte;
  fault : option error;
  closed : bool;
  drained : nat
}.

(** [io.ReadAll]: everything up to EOF or the fault, and the fault. *)
Definition ReadAll (b : ReadCloser)
  : ReadCloser * (list Byte.byte * option error) :=
  ({| unread := []; fault := fault b; closed := closed b;
      drained := S (drained b) |},
   (unread b, fault b)).

Definition Close (b : ReadCloser) : ReadCloser :=
  {| unread := unread b; fault := fault b; closed := true;
     drained := drained b |}.

End io.

(** [http.Request], the two fields the package touches. *)
Record http_Request : Type := { URL : url.URL; Body : io.ReadCloser }.

(** ** [Request] and [ParseQuery] (request.go, lines 23-57) *)

(** The dynamic values [ParseQuery] stores under [any]. *)
Inductive any : Type :=
  | AnyInt (intValue : Z)
  | AnyFloat64 (floatValue : strconv.float64)
  | AnyBool (boolValue : bool)
  | AnyString (value : string).

(** The four shapes a stored value can have. *)
Inductive Variant : Type := Integer | Float | Boolean | Text.

Definition variant_of (v : any) : Variant :=
  match v with
  | AnyInt _ => Integer
  | AnyFloat64 _ => Float
  | AnyBool _ => Boolean
  | AnyString _ => Text
  end.

(** [Query map[string]any]; [None] is the nil map. *)
Record Request : Type := { Query : option (gmap string any) }.

(** Reading a key of [r.Query]; a nil map reads as an empty one. *)
Definition Query_lookup (r : Request) (key : string) : option any :=
  match Query r with
  | None => None
  | Some q => q !! key
  end.

(** Lines 43-55: the chain of conversions tried on one raw value. *)
Definition inferValue (value : string) : any :=
  match strconv.Atoi value with
  | inl intValue => AnyInt intValue
  | inr _ =>
      match strconv.ParseFloat64 value with
      | inl floatValue => AnyFloat64 floatValue
      | inr _ =>
          match strconv.ParseBool value with
          | inl boolValue => AnyBool boolValue
          | inr _ => AnyString value
          end
      end
  end.

(** One iteration of the loop of line 38.  [None] is the run-time panic
    of [values[0]] on an empty slice. *)
Definition ParseQuery_iter (key : string) (values : list string)
    (acc : option (gmap string any)) : option (gmap string any) :=
  q ← acc;
  value ← values !! 0%nat;
  Some (<[key := inferValue value]> q).

Definition ParseQuery (r : Request) (req : http_Request) : option Request :=
  let q0 := match Query r with
            | None => ∅           (* r.Query = make(map[string]any) *)
            | Some q => q
            end in
  let queryParams := url.Query (URL req) in
  q ← map_fold ParseQuery_iter (Some q0) queryParams;
  Some {| Query := Some q |}.


(** ** [Validate] (request.go, lines 59-98) *)

Module reflect.

(** The kinds that tell the targets apart. *)
Inductive Kind : Type := Invalid | Struct | Ptr.

Definition Kind_eqb (a b : Kind) : bool :=
  match a, b with
  | Invalid, Invalid | Struct, Struct | Ptr, Ptr => true
  | _, _ => false
  end.

End reflect.

(** The interface value passed as [request]. *)
Inductive FormRequest : Type :=
  | NilInterface     (* no dynamic type at all *)
  | StructValue      (* a form held by value *)
  | NilPointer       (* a typed nil pointer *)
  | Pointer.         (* the address of the form in memory *)

Definition Kind (requestValue : FormRequest) : reflect.Kind :=
  match requestValue with
  | NilInterface => reflect.Invalid
  | StructValue => reflect.Struct
  | NilPointer | Pointer => reflect.Ptr
  end.

(** [IsNil] is evaluated at kind [Ptr] only: [||] does not reach it
    otherwise. *)
Definition IsNil (requestValue : FormRequest) : bool :=
  match requestValue with
  | NilPointer => true
  | _ => false
  end.

(** The test of line 63. *)
Definition invalid_target (requestValue : FormRequest) : bool :=
  negb (reflect.Kind_eqb (Kind requestValue) reflect.Ptr)
  || IsNil requestValue.

(** The receiver [r]: the [Request] embedded in the form, or a [Request]
    of its own. *)
Inductive Receiver : Type := Embedded | Separate.

(** The steps of [Validate], in source order (the log is ghost state). *)
Inductive Stage : Type :=
  | TypeCheck | BodyRead | Decode | Prepare | Hook | RuleValidate | QueryMerge.

Definition pipeline : list Stage :=
  [TypeCheck; BodyRead; Decode; Prepare; Hook; RuleValidate; QueryMerge].

(** How a call ends. *)
Inductive Exit : Type := Returned (err : option error) | Panicked.

(** Calls registered with [defer]. *)
Inductive Deferred : Type := CloseBody.

Definition InvalidTargetError : error :=
  errors_New "se espera un puntero al tipo que implementa FormRequest".

(** A concrete form: a struct that embeds [Request] next to its own
    fields. *)
Record Form (Fields : Type) : Type :=
  { base : Request; fields : Fields }.
Arguments base {Fields} _.
Arguments fields {Fields} _.

(** The methods of the [FormRequest] interface that [Validate] calls,
    for forms with the given fields.  Each may change the form. *)
Class FormMethods (Fields Rule : Type) : Type := {
  Rules : Form Fields → Form Fields * gmap string Rule;
  PrepareForValidation : Form Fields → Form Fields * option error;
  WithValidator : Form Fields → Form Fields * option error
}.

(** What a call can reach: the form behind a non-nil target pointer, a
    [Request] outside of it, the HTTP request, and the log. *)
Record State (Fields : Type) : Type := {
  target : Form Fields;
  separate : Request;
  req : http_Request;
  log : list Stage
}.
Arguments target {Fields} _.
Arguments separate {Fields} _.
Arguments req {Fields} _.
Arguments log {Fields} _.

Section Pipeline.

Context {Fields Rule : Type} `{!FormMethods Fields Rule}.

(** The two package-level collaborators. *)
Variable json_Unmarshal :
  list Byte.byte → Form Fields → Form Fields * option error.
Variable validation_Struct :
  Form Fields → gmap string Rule → Form Fields * option error.

#[local] Abbreviation State := (State Fields).

(** The frame of a call: the state and the deferred calls. *)
Record Frame : Type := { world : State; defers : list Deferred }.

Definition Go (A : Type) : Type := Frame → Frame * (Exit + A).

#[local] Instance Go_ret : MRet Go := fun A a fr => (fr, inr a).

#[local] Instance Go_bind : MBind Go := fun A B k m fr =>
  match m fr with
  | (fr', inl e) => (fr', inl e)
  | (fr', inr a) => k a fr'
  end.

Definition return_ {A} (err : option error) : Go A :=
  fun fr => (fr, inl (Returned err)).

Definition on_world {A} (f : State → State * (Exit + A)) : Go A :=
  fun fr => let '(st, res) := f (world fr) in
            ({| world := st; defers := defers fr |}, res).

Definition defer (d : Deferred) : Go unit :=
  fun fr => ({| world := world fr; defers := d :: defers fr |}, inr tt).

Definition enter (s : Stage) : Go unit :=
  on_world (fun st =>
    ({| target := target st; separate := separate st; req := req st;
        log := log st ++ [s] |}, inr tt)).

Definition set_Body (b : io.ReadCloser) (st : State) : State :=
  {| target := target st; separate := separate st;
     req := {| URL := URL (req st); Body := b |}; log := log st |}.

Definition set_target (t : Form Fields) (st : State) : State :=
  {| target := t; separate := separate st; req := req st; log := log st |}.


(** The state a call leaves that read the body and registered its
    closing: the form is [t], the first [n] stages ran. *)
Definition left_after (n : nat) (t : Form Fields) (st : State) : State :=
  {| target := t; separate := separate st;
     req := {| URL := URL (req st);
               Body := io.Close (io.ReadAll (Body (req st))).1 |};
     log := log st ++ take n pipeline |}.

(** [io.ReadAll(req.Body)] *)
Definition ReadAll_Body : Go (list Byte.byte * option error) :=
  on_world (fun st =>
    let '(b, res) := io.ReadAll (Body (req st)) in (set_Body b st, inr res)).

(** A call that works on the form behind [request]. *)
Definition on_target {A} (f : Form Fields → Form Fields * A) : Go A :=
  on_world (fun st =>
    let '(t, a) := f (target st) in (set_target t st, inr a)).

Definition load (r : Receiver) (st : State) : Request :=
  match r with
  | Embedded => base (target st)
  | Separate => separate st
  end.

Definition store (r : Receiver) (v : Request) (st : State) : State :=
  match r with
  | Embedded =>
      set_target {| base := v; fields := fields (target st) |} st
  | Separate =>
      {| target := target st; separate := v; req := req st;
         log := log st |}
  end.

(** [r.ParseQuery(req)] *)
Definition call_ParseQuery (r : Receiver) : Go unit :=
  on_world (fun st =>
    match ParseQuery (load r st) (req st) with
    | Some v => (store r v st, inr tt)
    | None => (st, inl Panicked)
    end).

(** [if err != nil { return err }] *)
Definition check (err : option error) : Go unit :=
  match err with
  | Some e => return_ (Some e)
  | None => mret tt
  end.

Definition Validate_body (r : Receiver) (request : FormRequest)
  : Go Empty_set :=
  enter TypeCheck;;
  let requestValue := request in
  (if invalid_target requestValue
   then return_ (Some InvalidTargetError)
   else mret tt);;
  enter BodyRead;;
  '(body, err) ← ReadAll_Body;
  check err;;
  defer CloseBody;;
  enter Decode;;
  err ← on_target (json_Unmarshal body);
  check err;;
  enter Prepare;;
  err ← on_target PrepareForValidation;
  check err;;
  enter Hook;;
  err ← on_target WithValidator;
  check err;;
  enter RuleValidate;;
  rules ← on_target Rules;
  err ← on_target (fun t => validation_Struct t rules);
  check err;;
  enter QueryMerge;;
  call_ParseQuery r;;
  return_ None.

Definition run_deferred (d : Deferred) (st : State) : State :=
  match d with
  | CloseBody => set_Body (io.Close (Body (req st))) st
  end.

(** The call: the body, then the deferred calls, last registered
    first, whether the body returned or panicked. *)
Definition Validate (r : Receiver) (request : FormRequest) (st : State)
  : State * Exit :=
  let '(fr, res) := Validate_body r request {| world := st; defers := [] |} in
  (foldl (fun st d => run_deferred d st) (world fr) (defers fr),
   match res with
   | inl e => e
   | inr x => match x : Empty_set with end
   end).

End Pipeline.

(** ** A concrete form, for running the definitions

    [type Signup struct { request.Request; Name string }] with the rule
    that [name] is required, decoded from bodies of the shape
    [{name: ...}] (with JSON quoting). *)

Module Demo.

Definition Fields : Type := string.

Inductive Rule : Type := Required.

Definition quote : string := String (ascii_of_nat 34) EmptyString.

Definition body_named (name : string) : list Byte.byte :=
  list_byte_of_string
    ("{" ++ quote ++ "name" ++ quote ++ ":" ++ quote ++ name ++ quote
     ++ "}")%string.

Definition SyntaxError : error :=
  {| dynamic_type := "*json.SyntaxError";
     Error := "invalid character" |}.

Definition NameRequired : error :=
  {| dynamic_type := "validation.Errors"; Error := "name: required" |}.

(** Decoding knows the two bodies the examples use and rejects the
    rest. *)
Definition json_Unmarshal (body : list Byte.byte) (f : Form Fields)
  : Form Fields * option error :=
  let text := string_of_list_byte body in
  if (text =? string_of_list_byte (body_named "a"))%string
  then ({| base := base f; fields := "a" |}, None)
  else if (text =? string_of_list_byte (body_named ""))%string
  then ({| base := base f; fields := "" |}, None)
  else (f, Some SyntaxError).

Definition validation_Struct (f : Form Fields) (rules : gmap string Rule)
  : Form Fields * option error :=
  match rules !! "name" with
  | Some Required =>
      if (fields f =? "")%string then (f, Some NameRequired) else (f, None)
  | None => (f, None)
  end.

#[global] Instance Signup : FormMethods Fields Rule := {|
  Rules f := (f, {[ "name" := Required ]});
  PrepareForValidation f := (f, None);
  WithValidator f := (f, None)
|}.

Definition fresh_body (bytes : list Byte.byte) : io.ReadCloser :=
  {| io.unread := bytes; io.fault := None; io.closed := false;
     io.drained := 0 |}.

(** [?age=30&active=true&ratio=1.5&tag=x] *)
Definition query : url.URL :=
  {| url.pairs := [("age", "30"); ("active", "true"); ("ratio", "1.5");
                   ("tag", "x")] |}.

(** A zero-valued form, a zero-valued [Request] next to it, and a
    request that was not read yet. *)
Definition start (bytes : list Byte.byte) : State Fields :=
  {| target := {| base := {| Query := None |}; fields := "" |};
     separate := {| Query := None |};
     req := {| URL := query; Body := fresh_body bytes |};
     log := [] |}.

Definition call : Receiver → FormRequest → State Fields →
                  State Fields * Exit :=
  Validate json_Unmarshal validation_Struct.

End Demo.

(** ** Facts about the models *)

Section url_facts.

Lemma foldl_Add_lookup (ps : list (string * string))
    (v : gmap string (list string)) (key : string) :
  foldl (fun v kv => url.Add v kv.1 kv.2) v ps !! key =
  match url.values_of key ps with
  | [] => v !! key
  | vs => Some (default [] (v !! key) ++ vs)%list
  end.
Proof.
  revert v. induction ps as [|[k x] ps IH]; intros v; [done|].
  cbn [foldl url.values_of fst snd]. rewrite IH. unfold url.Add.
  destruct (decide (k = key)) as [->|Hne].
  - rewrite lookup_insert_eq. cbn [default].
    destruct (url.values_of key ps) as [|y ys]; [done|].
    f_equal. unfold id. by rewrite <- app_assoc.
  - by rewrite lookup_insert_ne.
Qed.

(** What [Query] holds under a key: the values the URL gives it, in
    order, and nothing when it gives none. *)
Lemma Query_lookup_values (u : url.URL) (key : string) :
  url.Query u !! key =
  match url.values_of key (url.pairs u) with
  | [] => None
  | vs => Some vs
  end.
Proof.
  unfold url.Query. rewrite foldl_Add_lookup, lookup_empty.
  by destruct (url.values_of key (url.pairs u)).
Qed.

Lemma Query_values_nonempty (u : url.URL) (key : string)
    (values : list string) :
  url.Query u !! key = Some values → ∃ value rest, values = value :: rest.
Proof.
  rewrite Query_lookup_values.
  destruct (url.values_of key (url.pairs u)) as [|x xs]; [done|].
  intros [= <-]. eauto.
Qed.

End url_facts.

Section ParseQuery_facts.

(** The loop, started from a map, yields a map unless some key has no
    value; each key of the parameters holds the inference of its first
    value, every other key is unchanged. *)
Lemma ParseQuery_loop (q0 : gmap string any)
    (params : gmap string (list string)) :
  (∀ key values, params !! key = Some values → values ≠ []) →
  ∃ q, map_fold ParseQuery_iter (Some q0) params = Some q ∧
       ∀ key, q !! key =
              match params !! key with
              | Some values => inferValue <$> values !! 0%nat
              | None => q0 !! key
              end.
Proof.
  revert params.
  apply (map_fold_weak_ind (fun acc params =>
    (∀ key values, params !! key = Some values → values ≠ []) →
    ∃ q, acc = Some q ∧
         ∀ key, q !! key =
                match params !! key with
                | Some values => inferValue <$> values !! 0%nat
                | None => q0 !! key
                end)).
  - intros _. exists q0. split; [done|]. intros key.
    by rewrite lookup_empty.
  - intros k values params acc Hk IH Hne.
    destruct IH as (q & -> & Hq).
    { intros key vs Hvs. apply (Hne key).
      rewrite lookup_insert_ne; [done|]. intros ->. congruence. }
    destruct values as [|value rest].
    { exfalso. apply (Hne k []); [|done]. by rewrite lookup_insert_eq. }
    eexists. split; [reflexivity|]. intros key.
    destruct (decide (k = key)) as [->|Hkk].
    + by rewrite !lookup_insert_eq.
    + rewrite !lookup_insert_ne by done. apply Hq.
Qed.

(** [ParseQuery] always returns, and this is what it leaves in
    [r.Query]. *)
Lemma ParseQuery_spec (r : Request) (req : http_Request) :
  ∃ q, ParseQuery r req = Some {| Query := Some q |} ∧
       ∀ key, q !! key =
              match url.values_of key (url.pairs (URL req)) with
              | value :: _ => Some (inferValue value)
              | [] => Query_lookup r key
              end.
Proof.
  unfold ParseQuery.
  destruct (ParseQuery_loop
              (match Query r with None => ∅ | Some q => q end)
              (url.Query (URL req))) as (q & Hfold & Hq).
  { intros key values Hv ->.
    by destruct (Query_values_nonempty _ _ _ Hv) as (? & ? & ?). }
  exists q. rewrite Hfold. split; [done|]. intros key.
  rewrite Hq, Query_lookup_values. unfold Query_lookup.
  destruct (url.values_of key (url.pairs (URL req))); [|done].
  destruct (Query r); [done|]. by rewrite lookup_empty.
Qed.

End ParseQuery_facts.


(** Closes a goal by evaluating both sides. *)
Ltac by_evaluation := vm_compute; reflexivity.

(** ** Query inference *)

Section inference.

(** The conversions are tried in source order: integer, float,
    boolean, and the raw string when all three fail. *)
Lemma inferValue_order (value : string) :
  match strconv.Atoi value, strconv.ParseFloat64 value,
        strconv.ParseBool value with
  | inl n, _, _ => inferValue value = AnyInt n
  | inr _, inl f, _ => inferValue value = AnyFloat64 f
  | inr _, inr _, inl b => inferValue value = AnyBool b
  | inr _, inr _, inr _ => inferValue value = AnyString value
  end.
Proof.
  unfold inferValue.
  destruct (strconv.Atoi value); [done|].
  destruct (strconv.ParseFloat64 value); [done|].
  by destruct (strconv.ParseBool value).
Qed.


(** What a key holds after [ParseQuery], read through [Query_lookup]. *)
Lemma ParseQuery_lookup (r : Request) (req : http_Request) :
  ∃ v, ParseQuery r req = Some v ∧ Query v ≠ None ∧
       ∀ key, Query_lookup v key =
              match url.values_of key (url.pairs (URL req)) with
              | value :: _ => Some (inferValue value)
              | [] => Query_lookup r key
              end.
Proof.
  destruct (ParseQuery_spec r req) as (q & Hq & Hlook).
  exists {| Query := Some q |}. split; [done|]. split; [done|].
  intros key. apply Hlook.
Qed.

(** C4.  A raw value that both [strconv.Atoi] and [strconv.ParseBool]
    accept (such as ["1"] and ["0"]) is inferred as the integer and not
    as a boolean, and that integer is what [ParseQuery] stores under
    every key whose first value it is.  The conversions are tried in the
    order integer, float, boolean, string. *)
Theorem integer_wins_over_boolean (value : string) (n : Z) (b : bool) :
  strconv.Atoi value = inl n →
  strconv.ParseBool value = inl b →
  inferValue value = AnyInt n ∧
  (∀ b', inferValue value ≠ AnyBool b') ∧
  (∀ (r : Request) (req : http_Request) (key : string) (rest : list string),
     url.Query (URL req) !! key = Some (value :: rest) →
     ∃ v, ParseQuery r req = Some v ∧ Query_lookup v key = Some (AnyInt n)) ∧
  ∀ other : string,
    match strconv.Atoi other, strconv.ParseFloat64 other,
          strconv.ParseBool other with
    | inl i, _, _ => inferValue other = AnyInt i
    | inr _, inl f, _ => inferValue other = AnyFloat64 f
    | inr _, inr _, inl c => inferValue other = AnyBool c
    | inr _, inr _, inr _ => inferValue other = AnyString other
    end.
Proof.
  intros Hint _.
  assert (Hv : inferValue value = AnyInt n).
  { pose proof (inferValue_order value) as H. by rewrite Hint in H. }
  split; [done|]. split; [intros b'; by rewrite Hv|].
  split; [|apply inferValue_order].
  intros r req key rest Hkey.
  destruct (ParseQuery_lookup r req) as (v & Hrun & _ & Hlook).
  exists v. split; [done|]. rewrite Hlook.
  rewrite Query_lookup_values in Hkey.
  destruct (url.values_of key (url.pairs (URL req))) as [|x xs]; [done|].
  injection Hkey as -> _. by rewrite Hv.
Qed.

(** The theorem of C4 at ["1"] and at ["0"]. *)
Lemma integer_wins_over_boolean_witness :
  inferValue "1" = AnyInt 1 ∧ inferValue "0" = AnyInt 0.
Proof.
  split.
  - apply (integer_wins_over_boolean "1" 1 true); by_evaluation.
  - apply (integer_wins_over_boolean "0" 0 false); by_evaluation.
Defined.

(** C5.  Inference is a total function of the raw value: every value
    lands in exactly one of the four variants, decided by which
    conversions reject it, the raw string being kept when all three do;
    the empty string is such a value; and [ParseQuery] never fails on
    the parameters of a URL. *)
Theorem inference_is_total (value : string) :
  ((∃ n, strconv.Atoi value = inl n ∧ inferValue value = AnyInt n) ∨
   (∃ f, strconv.fails (strconv.Atoi value) ∧
         strconv.ParseFloat64 value = inl f ∧
         inferValue value = AnyFloat64 f) ∨
   (∃ b, strconv.fails (strconv.Atoi value) ∧
         strconv.fails (strconv.ParseFloat64 value) ∧
         strconv.ParseBool value = inl b ∧ inferValue value = AnyBool b) ∨
   (strconv.fails (strconv.Atoi value) ∧
    strconv.fails (strconv.ParseFloat64 value) ∧
    strconv.fails (strconv.ParseBool value) ∧
    inferValue value = AnyString value)) ∧
  (∃ k, variant_of (inferValue value) = k ∧
        ∀ k', variant_of (inferValue value) = k' → k' = k) ∧
  inferValue "" = AnyString "" ∧
  ∀ (r : Request) (req : http_Request), ∃ v, ParseQuery r req = Some v.
Proof.
  split; [|split; [|split; [reflexivity|]]].
  2: { exists (variant_of (inferValue value)). split; [done|]. by intros k <-. }
  - pose proof (inferValue_order value) as H.
    destruct (strconv.Atoi value) as [n|]; [left; eauto|].
    destruct (strconv.ParseFloat64 value) as [f|];
      [right; left; exists f; cbn; auto|].
    destruct (strconv.ParseBool value) as [b|];
      [right; right; left; exists b; cbn; auto|].
    right; right; right. cbn. auto.
  - intros r req. destruct (ParseQuery_lookup r req) as (v & Hv & _).
    eauto.
Qed.

(** C8.  Running [ParseQuery] again on the same request, from the
    [Request] the first run left, changes nothing. *)
Theorem ParseQuery_idempotent (r : Request) (req : http_Request) :
  ∃ v, ParseQuery r req = Some v ∧ ParseQuery v req = Some v.
Proof.
  destruct (ParseQuery_spec r req) as (q & Hq & Hlook).
  destruct (ParseQuery_spec {| Query := Some q |} req) as (q' & Hq' & Hlook').
  exists {| Query := Some q |}. split; [done|].
  rewrite Hq'. assert (q' = q) as ->; [|done].
  apply map_eq. intros key.
  rewrite Hlook', Hlook. unfold Query_lookup at 1. cbn [Query].
  rewrite Hlook.
  by destruct (url.values_of key (url.pairs (URL req))).
Qed.

(** C9.  [ParseQuery] writes into the map the receiver already has: a
    key the request does not carry keeps its value, a key it carries
    gets the inference of its first value, and a nil map is replaced by
    an empty one first, so the result is never nil and is the one an
    empty map would give. *)
Theorem ParseQuery_merges (r : Request) (req : http_Request) :
  ∃ q, ParseQuery r req = Some {| Query := Some q |} ∧
       (∀ key, url.Query (URL req) !! key = None →
               q !! key = Query_lookup r key) ∧
       (∀ key value rest,
          url.Query (URL req) !! key = Some (value :: rest) →
          q !! key = Some (inferValue value)) ∧
       (Query r = None →
        ParseQuery {| Query := Some ∅ |} req = Some {| Query := Some q |}).
Proof.
  destruct (ParseQuery_spec r req) as (q & Hq & Hlook).
  exists q. split; [done|]. repeat split.
  - intros key. rewrite Query_lookup_values, Hlook.
    by destruct (url.values_of key (url.pairs (URL req))).
  - intros key value rest. rewrite Query_lookup_values, Hlook.
    destruct (url.values_of key (url.pairs (URL req))); [done|].
    by intros [= -> _].
  - intros Hnil. rewrite <- Hq. unfold ParseQuery. by rewrite Hnil.
Qed.


End inference.

(** ** The pipeline *)

Section Pipeline_facts.

Context {Fields Rule : Type} `{!FormMethods Fields Rule}.
Variable json_Unmarshal :
  list Byte.byte → Form Fields → Form Fields * option error.
Variable validation_Struct :
  Form Fields → gmap string Rule → Form Fields * option error.

(** Unfolds the statements of [Validate] down to the collaborators. *)
Ltac run_go :=
  cbv [Validate Validate_body invalid_target enter ReadAll_Body on_target
       call_ParseQuery check defer return_ on_world mbind mret Go_bind
       Go_ret world defers io.ReadAll run_deferred set_Body set_target
       foldl].

(** Splits on the result of the next collaborator or test. *)
Ltac next_case :=
  match goal with
  | |- context [match ?x with _ => _ end] => destruct x eqn:?
  end.

Lemma Validate_invalid (r : Receiver) (request : FormRequest)
    (st : State Fields) :
  request ≠ Pointer →
  Validate json_Unmarshal validation_Struct r request st =
  ({| target := target st; separate := separate st; req := req st;
      log := log st ++ [TypeCheck] |},
   Returned (Some InvalidTargetError)).
Proof.
  intros Hreq. run_go. by destruct request.
Qed.

Lemma Validate_read_fault (r : Receiver) (st : State Fields) (e : error) :
  io.fault (Body (req st)) = Some e →
  Validate json_Unmarshal validation_Struct r Pointer st =
  ({| target := target st; separate := separate st;
      req := {| URL := URL (req st); Body := (io.ReadAll (Body (req st))).1 |};
      log := (log st ++ [TypeCheck]) ++ [BodyRead] |},
   Returned (Some e)).
Proof.
  intros He. run_go. cbn. by rewrite He.
Qed.

Ltac finish_path :=
  cbv [left_after io.Close io.ReadAll fst take pipeline]; cbn;
  repeat match goal with
         | H : io.fault _ = None |- _ => rewrite H
         end;
  rewrite <- ?app_assoc; reflexivity.

Section paths.

Variables (r : Receiver) (st : State Fields).
Hypothesis Hread : io.fault (Body (req st)) = None.

Ltac run_path :=
  run_go; cbn; rewrite Hread; cbn;
  repeat match goal with
         | H : ?f = (_, _) |- context [?f] => rewrite H; cbn
         end.

Lemma Validate_decode_error (t1 : Form Fields) (e : error) :
  json_Unmarshal (io.unread (Body (req st))) (target st) = (t1, Some e) →
  Validate json_Unmarshal validation_Struct r Pointer st =
  (left_after 3 t1 st, Returned (Some e)).
Proof. intros H1. run_path. finish_path. Qed.

Lemma Validate_prepare_error (t1 t2 : Form Fields) (e : error) :
  json_Unmarshal (io.unread (Body (req st))) (target st) = (t1, None) →
  PrepareForValidation t1 = (t2, Some e) →
  Validate json_Unmarshal validation_Struct r Pointer st =
  (left_after 4 t2 st, Returned (Some e)).
Proof. intros H1 H2. run_path. finish_path. Qed.

Lemma Validate_hook_error (t1 t2 t3 : Form Fields) (e : error) :
  json_Unmarshal (io.unread (Body (req st))) (target st) = (t1, None) →
  PrepareForValidation t1 = (t2, None) →
  WithValidator t2 = (t3, Some e) →
  Validate json_Unmarshal validation_Struct r Pointer st =
  (left_after 5 t3 st, Returned (Some e)).
Proof. intros H1 H2 H3. run_path. finish_path. Qed.

Lemma Validate_rule_error (t1 t2 t3 t4 t5 : Form Fields)
    (rules : gmap string Rule) (e : error) :
  json_Unmarshal (io.unread (Body (req st))) (target st) = (t1, None) →
  PrepareForValidation t1 = (t2, None) →
  WithValidator t2 = (t3, None) →
  Rules t3 = (t4, rules) →
  validation_Struct t4 rules = (t5, Some e) →
  Validate json_Unmarshal validation_Struct r Pointer st =
  (left_after 6 t5 st, Returned (Some e)).
Proof. intros H1 H2 H3 H4 H5. run_path. finish_path. Qed.

Lemma Validate_success (t1 t2 t3 t4 t5 : Form Fields)
    (rules : gmap string Rule) (v : Request) :
  json_Unmarshal (io.unread (Body (req st))) (target st) = (t1, None) →
  PrepareForValidation t1 = (t2, None) →
  WithValidator t2 = (t3, None) →
  Rules t3 = (t4, rules) →
  validation_Struct t4 rules = (t5, None) →
  ParseQuery (load r (left_after 7 t5 st)) (req st) = Some v →
  Validate json_Unmarshal validation_Struct r Pointer st =
  (store r v (left_after 7 t5 st), Returned None).
Proof.
  intros H1 H2 H3 H4 H5 Hv. run_path.
  match goal with
  | |- context [ParseQuery ?a ?b] =>
      change (ParseQuery a b)
        with (ParseQuery (load r (left_after 7 t5 st)) (req st))
  end.
  rewrite Hv. destruct r; finish_path.
Qed.

End paths.

(** The test of lines 62-65, by cases on the target. *)
Lemma rejected_iff_not_pointer (request : FormRequest) :
  invalid_target request = false ↔ request = Pointer.
Proof. by destruct request. Qed.

(** C6.  When the target is not a pointer or is a nil pointer,
    [Validate] returns the error of line 64 at once: the request, and so
    its body stream, is as it was (nothing read, nothing closed), the
    form and the receiver are untouched, and only the type check ran. *)
Theorem invalid_target_is_rejected (r : Receiver) (request : FormRequest)
    (st : State Fields) :
  invalid_target request = true →
  let out := Validate json_Unmarshal validation_Struct r request st in
  out.2 = Returned (Some InvalidTargetError) ∧
  req out.1 = req st ∧
  io.drained (Body (req out.1)) = io.drained (Body (req st)) ∧
  target out.1 = target st ∧
  separate out.1 = separate st ∧
  log out.1 = log st ++ [TypeCheck].
Proof.
  intros Hrej. cbv zeta. rewrite Validate_invalid; [done|].
  intros ->. discriminate Hrej.
Qed.

(** C1, as the code has it.  When the target is a non-nil pointer and
    the body is read without a fault, [Validate] returns with the body
    stream closed, whichever of the later stages fails or none. *)
Theorem body_closed_once_read (r : Receiver) (request : FormRequest)
    (st : State Fields) :
  invalid_target request = false →
  io.fault (Body (req st)) = None →
  let out := Validate json_Unmarshal validation_Struct r request st in
  io.closed (Body (req out.1)) = true ∧ ∃ err, out.2 = Returned err.
Proof.
  intros ->%rejected_iff_not_pointer Hread. cbv zeta.
  destruct (json_Unmarshal (io.unread (Body (req st))) (target st))
    as [t1 [e|]] eqn:H1.
  { rewrite (Validate_decode_error r st Hread t1 e H1). eauto. }
  destruct (PrepareForValidation t1) as [t2 [e|]] eqn:H2.
  { rewrite (Validate_prepare_error r st Hread t1 t2 e H1 H2). eauto. }
  destruct (WithValidator t2) as [t3 [e|]] eqn:H3.
  { rewrite (Validate_hook_error r st Hread t1 t2 t3 e H1 H2 H3). eauto. }
  destruct (Rules t3) as [t4 rules] eqn:H4.
  destruct (validation_Struct t4 rules) as [t5 [e|]] eqn:H5.
  { rewrite (Validate_rule_error r st Hread t1 t2 t3 t4 t5 rules e
               H1 H2 H3 H4 H5). eauto. }
  destruct (ParseQuery_lookup (load r (left_after 7 t5 st)) (req st))
    as (v & Hv & _).
  rewrite (Validate_success r st Hread t1 t2 t3 t4 t5 rules v
             H1 H2 H3 H4 H5 Hv).
  split; [by destruct r|eauto].
Qed.

(** C2, as the code has it.  When stages 1 to 6 succeed, [Validate]
    calls [ParseQuery] on its receiver with the request and returns
    nil: all seven stages ran, the receiver's [Query] holds the
    inference of the first value of every key of the request and
    keeps its other keys.  The form's own [Query] is the one written
    only if the receiver is the [Request] the form embeds. *)
Theorem success_parses_query_into_receiver (r : Receiver)
    (request : FormRequest) (st : State Fields)
    (t1 t2 t3 t4 t5 : Form Fields) (rules : gmap string Rule) :
  invalid_target request = false →
  io.fault (Body (req st)) = None →
  json_Unmarshal (io.unread (Body (req st))) (target st) = (t1, None) →
  PrepareForValidation t1 = (t2, None) →
  WithValidator t2 = (t3, None) →
  Rules t3 = (t4, rules) →
  validation_Struct t4 rules = (t5, None) →
  let out := Validate json_Unmarshal validation_Struct r request st in
  let before := match r with
                | Embedded => base t5
                | Separate => separate st
                end in
  out.2 = Returned None ∧
  log out.1 = log st ++ pipeline ∧
  ParseQuery before (req st) = Some (load r out.1) ∧
  (∀ key,
     Query_lookup (load r out.1) key =
     match url.values_of key (url.pairs (URL (req st))) with
     | value :: _ => Some (inferValue value)
     | [] => Query_lookup before key
     end) ∧
  match r with
  | Embedded => separate out.1 = separate st ∧
                fields (target out.1) = fields t5
  | Separate => target out.1 = t5
  end.
Proof.
  intros ->%rejected_iff_not_pointer Hread H1 H2 H3 H4 H5. cbv zeta.
  destruct (ParseQuery_lookup (load r (left_after 7 t5 st)) (req st))
    as (v & Hv & _ & Hlook).
  rewrite (Validate_success r st Hread t1 t2 t3 t4 t5 rules v
             H1 H2 H3 H4 H5 Hv).
  destruct r; cbn in *; repeat split; done.
Qed.


End Pipeline_facts.

Section Hooks.

Context {Fields Rule : Type}.
Variable json_Unmarshal :
  list Byte.byte → Form Fields → Form Fields * option error.
Variable validation_Struct :
  Form Fields → gmap string Rule → Form Fields * option error.

(** C7, as the code has it.  When the target is a non-nil pointer, the
    body is read without a fault and decoding it into the form fails,
    [Validate] returns the decoder's error.  The stages that ran are the
    type check, the read and the decoding; the form is as the decoder
    left it; and the whole outcome is the same whatever the methods of
    the form are: neither [PrepareForValidation] nor anything after it
    was called. *)
Theorem decode_error_stops_before_hooks (methods : FormMethods Fields Rule)
    (r : Receiver) (request : FormRequest) (st : State Fields)
    (t1 : Form Fields) (e : error) :
  invalid_target request = false →
  io.fault (Body (req st)) = None →
  json_Unmarshal (io.unread (Body (req st))) (target st) = (t1, Some e) →
  let out := Validate json_Unmarshal validation_Struct r request st in
  out.2 = Returned (Some e) ∧
  log out.1 = log st ++ [TypeCheck; BodyRead; Decode] ∧
  target out.1 = t1 ∧
  separate out.1 = separate st ∧
  ∀ methods' : FormMethods Fields Rule,
    @Validate Fields Rule methods' json_Unmarshal validation_Struct
      r request st = out.
Proof.
  intros ->%rejected_iff_not_pointer Hread H1. cbv zeta.
  rewrite (Validate_decode_error json_Unmarshal validation_Struct
             r st Hread t1 e H1).
  repeat split; try done.
  intros methods'.
  apply (@Validate_decode_error Fields Rule methods' json_Unmarshal
           validation_Struct r st Hread t1 e H1).
Qed.

End Hooks.

(** ** The pipeline on the concrete form *)

(** The theorem of C6 at a nil interface target and a body that was not
    read yet. *)
Lemma invalid_target_is_rejected_witness :
  let st := Demo.start (Demo.body_named "a") in
  let out := Demo.call Embedded NilInterface st in
  out.2 = Returned (Some InvalidTargetError) ∧
  req out.1 = req st ∧
  io.drained (Body (req out.1)) = io.drained (Body (req st)).
Proof.
  cbv zeta. unfold Demo.call.
  destruct (invalid_target_is_rejected Demo.json_Unmarshal
              Demo.validation_Struct Embedded NilInterface
              (Demo.start (Demo.body_named "a")))
    as (Hret & Hreq & Hdrained & _); [by_evaluation|].
  split; [exact Hret|]. split; [exact Hreq|exact Hdrained].
Defined.

(** Against C1 as stated: a call with a nil pointer as target returns
    while the body stream is still open. *)
Lemma body_left_open_on_invalid_target :
  let st := Demo.start (Demo.body_named "a") in
  let out := Demo.call Embedded NilPointer st in
  out.2 = Returned (Some InvalidTargetError) ∧
  io.closed (Body (req out.1)) = false.
Proof. by vm_compute. Qed.

(** The theorem of C1 on a run that fails at rule validation. *)
Lemma body_closed_once_read_witness :
  let st := Demo.start (Demo.body_named "") in
  let out := Demo.call Embedded Pointer st in
  io.closed (Body (req out.1)) = true.
Proof.
  cbv zeta. unfold Demo.call.
  destruct (body_closed_once_read Demo.json_Unmarshal Demo.validation_Struct
              Embedded Pointer (Demo.start (Demo.body_named "")))
    as (Hclosed & _); [by_evaluation|by_evaluation|].
  exact Hclosed.
Defined.

(** Against C7 as stated: the body is one the decoder rejects, yet with
    a nil pointer as target the error returned is the one of the type
    check, not the decoder's. *)
Lemma invalid_target_preempts_decode_error :
  let st := Demo.start (list_byte_of_string "{name") in
  let out := Demo.call Embedded NilPointer st in
  Demo.json_Unmarshal (io.unread (Body (req st))) (target st)
    = (target st, Some Demo.SyntaxError) ∧
  out.2 = Returned (Some InvalidTargetError) ∧
  out.2 ≠ Returned (Some Demo.SyntaxError).
Proof. by vm_compute. Qed.

(** The theorem of C7 on that body with a pointer as target. *)
Lemma decode_error_stops_before_hooks_witness :
  let st := Demo.start (list_byte_of_string "{name") in
  let out := Demo.call Embedded Pointer st in
  out.2 = Returned (Some Demo.SyntaxError) ∧
  log out.1 = log st ++ [TypeCheck; BodyRead; Decode].
Proof.
  cbv zeta. unfold Demo.call.
  destruct (decode_error_stops_before_hooks Demo.json_Unmarshal
              Demo.validation_Struct Demo.Signup Embedded Pointer
              (Demo.start (list_byte_of_string "{name"))
              (target (Demo.start (list_byte_of_string "{name")))
              Demo.SyntaxError)
    as (Hret & Hlog & _); [by_evaluation|by_evaluation|by_evaluation|].
  split; [exact Hret|exact Hlog].
Defined.

(** Against C2 as stated: stages 1 to 6 succeed and the call returns
    nil, but the receiver is not the [Request] the form embeds, so the
    form's [Query] is still nil; the typed values are in the receiver. *)
Lemma query_goes_to_the_receiver :
  let st := Demo.start (Demo.body_named "a") in
  let out := Demo.call Separate Pointer st in
  out.2 = Returned None ∧
  log out.1 = pipeline ∧
  Query (base (target out.1)) = None ∧
  Query_lookup (separate out.1) "age" = Some (AnyInt 30).
Proof. by vm_compute. Qed.

(** The theorem of C2 on the end-to-end example: the body names ["a"],
    the query is [age=30&active=true&ratio=1.5&tag=x], the receiver is
    the embedded [Request]. *)
Lemma success_parses_query_into_receiver_witness :
  let st := Demo.start (Demo.body_named "a") in
  let out := Demo.call Embedded Pointer st in
  out.2 = Returned None ∧
  log out.1 = log st ++ pipeline ∧
  Query_lookup (base (target out.1)) "age" = Some (AnyInt 30) ∧
  Query_lookup (base (target out.1)) "active" = Some (AnyBool true) ∧
  Query_lookup (base (target out.1)) "ratio"
    = Some (AnyFloat64 (S754_finite false 6755399441055744 (-52))) ∧
  Query_lookup (base (target out.1)) "tag" = Some (AnyString "x").
Proof.
  cbv zeta. unfold Demo.call.
  pose (t := {| base := {| Query := None |}; fields := "a" |}
             : Form Demo.Fields).
  destruct (success_parses_query_into_receiver Demo.json_Unmarshal
              Demo.validation_Struct Embedded Pointer
              (Demo.start (Demo.body_named "a")) t t t t t
              {[ "name" := Demo.Required ]})
    as (Hret & Hlog & _);
    [by_evaluation|by_evaluation|by_evaluation|by_evaluation|by_evaluation
    |by_evaluation|by_evaluation|].
  split; [exact Hret|]. split; [exact Hlog|].
  clear. vm_compute. repeat split.
Defined.


(** The theorem of C9 on a receiver that already holds a key. *)
Lemma ParseQuery_merges_witness :
  ∃ q, ParseQuery {| Query := Some {[ "page" := AnyInt 2 ]} |}
         {| URL := Demo.query; Body := Demo.fresh_body [] |}
       = Some {| Query := Some q |} ∧
       q !! "page" = Some (AnyInt 2) ∧
       q !! "tag" = Some (AnyString "x").
Proof.
  destruct (ParseQuery_merges {| Query := Some {[ "page" := AnyInt 2 ]} |}
              {| URL := Demo.query; Body := Demo.fresh_body [] |})
    as (q & Hq & Hkeep & Hnew & _).
  exists q. split; [exact Hq|]. split.
  - rewrite (Hkeep "page"); by_evaluation.
  - apply (Hnew "tag" "x" []). by_evaluation.
Defined.


(** ** More on [ParseQuery] *)

Section ParseQuery_more.

Lemma values_of_app (key : string) (ps qs : list (string * string)) :
  url.values_of key (ps ++ qs) = url.values_of key ps ++ url.values_of key qs.
Proof.
  induction ps as [|[k v] ps IH]; [done|]. cbn.
  destruct (decide (k = key)); by rewrite IH.
Qed.

(** X1.  Two runs of [ParseQuery], for one request and then for another,
    leave what a single run leaves for a URL that carries the pairs of
    the second request followed by those of the first: on a key both
    carry, the later request wins. *)
Theorem ParseQuery_twice_is_one_run (r : Request) (req1 req2 : http_Request) :
  ∃ v1 v2,
    ParseQuery r req1 = Some v1 ∧
    ParseQuery v1 req2 = Some v2 ∧
    ParseQuery r
      {| URL := {| url.pairs := url.pairs (URL req2) ++ url.pairs (URL req1) |};
         Body := Body req2 |} = Some v2.
Proof.
  destruct (ParseQuery_spec r req1) as (q1 & H1 & L1).
  destruct (ParseQuery_spec {| Query := Some q1 |} req2) as (q2 & H2 & L2).
  destruct (ParseQuery_spec r
              {| URL := {| url.pairs := url.pairs (URL req2)
                                        ++ url.pairs (URL req1) |};
                 Body := Body req2 |}) as (q & H & L).
  exists {| Query := Some q1 |}, {| Query := Some q2 |}.
  split; [done|]. split; [done|]. rewrite H.
  assert (q = q2) as ->; [|done].
  apply map_eq. intros key. rewrite L, L2. cbn [URL url.pairs].
  rewrite values_of_app. unfold Query_lookup at 2. cbn [Query]. rewrite L1.
  by destruct (url.values_of key (url.pairs (URL req2))).
Qed.

(** X2.  What [ParseQuery] leaves depends on the request through the
    first value of each key only: two requests whose parameters agree on
    the first value of every key give the same result, whatever further
    values, and whatever bodies, they carry. *)
Theorem ParseQuery_reads_first_values_only (r : Request)
    (req1 req2 : http_Request) :
  (∀ key, url.Query (URL req1) !! key ≫= head
          = url.Query (URL req2) !! key ≫= head) →
  ParseQuery r req1 = ParseQuery r req2.
Proof.
  intros Hfirst.
  destruct (ParseQuery_spec r req1) as (q1 & H1 & L1).
  destruct (ParseQuery_spec r req2) as (q2 & H2 & L2).
  rewrite H1, H2. assert (q1 = q2) as ->; [|done].
  apply map_eq. intros key. rewrite L1, L2.
  specialize (Hfirst key). rewrite !Query_lookup_values in Hfirst.
  destruct (url.values_of key (url.pairs (URL req1))),
           (url.values_of key (url.pairs (URL req2)));
    cbn in Hfirst; congruence.
Qed.

Lemma ParseQuery_reads_first_values_only_witness :
  ParseQuery {| Query := None |}
    {| URL := {| url.pairs := [("a", "1"); ("a", "2")] |};
       Body := Demo.fresh_body [] |}
  = ParseQuery {| Query := None |}
      {| URL := {| url.pairs := [("a", "1")] |};
         Body := Demo.fresh_body (Demo.body_named "a") |}.
Proof.
  apply ParseQuery_reads_first_values_only. intros key.
  rewrite !Query_lookup_values. cbn.
  destruct (decide ("a" = key)); reflexivity.
Defined.

(** X3.  The keys of [r.Query] after [ParseQuery] are the keys it had
    together with the keys of the request: no key is ever removed. *)
Theorem ParseQuery_keys (r : Request) (req : http_Request) :
  ∃ q, ParseQuery r req = Some {| Query := Some q |} ∧
       dom q = dom (default ∅ (Query r)) ∪ dom (url.Query (URL req)).
Proof.
  destruct (ParseQuery_spec r req) as (q & Hq & L).
  exists q. split; [done|]. apply set_eq. intros key.
  rewrite elem_of_union, !elem_of_dom, L, Query_lookup_values.
  unfold Query_lookup.
  destruct (url.values_of key (url.pairs (URL req))) as [|x xs].
  - destruct (Query r); cbn; [|rewrite lookup_empty];
      split; [by left|intros [?|[? [=]]]; done
             |by left|intros [?|[? [=]]]; done].
  - split; [intros _; right; eauto|eauto].
Qed.

(** X4.  For a request without query parameters [ParseQuery] keeps the
    map as it is, except that a nil map becomes an empty one. *)
Theorem ParseQuery_without_parameters (r : Request) (req : http_Request) :
  url.pairs (URL req) = [] →
  ParseQuery r req = Some {| Query := Some (default ∅ (Query r)) |}.
Proof.
  intros Hnone. unfold ParseQuery, url.Query. rewrite Hnone. cbn [foldl].
  rewrite map_fold_empty. by destruct (Query r).
Qed.

Lemma ParseQuery_without_parameters_witness :
  ParseQuery {| Query := None |}
    {| URL := {| url.pairs := [] |}; Body := Demo.fresh_body [] |}
  = Some {| Query := Some ∅ |}.
Proof.
  apply (ParseQuery_without_parameters {| Query := None |}). reflexivity.
Defined.

Lemma digits_from_nonneg (s : list ascii) (acc n : Z) :
  0 ≤ acc → strconv.digits_from acc s = Some n → 0 ≤ n.
Proof.
  revert acc. induction s as [|c s IH]; intros acc Hacc; cbn.
  - intros [= <-]. done.
  - unfold strconv.is_digit. destruct (_ && _) eqn:Hd; [|done].
    apply IH. apply andb_true_iff in Hd as [Hlo _]. lia.
Qed.

(** X5.  An integer stored by the inference fits the 64-bit [int]: a
    text whose value is outside of it is not stored as an integer. *)
Theorem inferred_integer_in_range (value : string) (n : Z) :
  inferValue value = AnyInt n → - 2 ^ 63 ≤ n < 2 ^ 63.
Proof.
  intros Hn. pose proof (inferValue_order value) as H.
  destruct (strconv.Atoi value) as [i|] eqn:Hi.
  2: { destruct (strconv.ParseFloat64 value); [congruence|].
       destruct (strconv.ParseBool value); congruence. }
  assert (i = n) as -> by congruence. clear H Hn.
  unfold strconv.Atoi, strconv.ParseInt10 in Hi.
  destruct (list_ascii_of_string value) as [|c s]; [done|].
  assert (Hbody : ∀ body un, strconv.ParseUint10 body = Some un → 0 ≤ un).
  { intros body un. unfold strconv.ParseUint10.
    destruct body; [done|]. by apply digits_from_nonneg. }
  change (Z.shiftl 1 (strconv.IntSize - 1)) with (2 ^ 63) in Hi.
  destruct (Ascii.eqb c "+"); [|destruct (Ascii.eqb c "-")];
    match type of Hi with
    | context [strconv.ParseUint10 ?b] =>
        destruct (strconv.ParseUint10 b) as [un|] eqn:Hun; [|done];
        apply Hbody in Hun
    end;
    cbn [negb andb] in Hi;
    repeat match type of Hi with
           | context [?a <=? ?b] => destruct (Z.leb_spec a b)
           | context [?a <? ?b] => destruct (Z.ltb_spec a b)
           end; try discriminate; injection Hi as <-; lia.
Qed.

Lemma inferred_integer_in_range_witness :
  - 2 ^ 63 ≤ - 9223372036854775808 < 2 ^ 63.
Proof.
  apply (inferred_integer_in_range "-9223372036854775808"). by_evaluation.
Defined.

End ParseQuery_more.

(** ** More on [Validate] *)

Section Validate_more.

Context {Fields Rule : Type} `{!FormMethods Fields Rule}.
Variable json_Unmarshal :
  list Byte.byte → Form Fields → Form Fields * option error.
Variable validation_Struct :
  Form Fields → gmap string Rule → Form Fields * option error.

(** Every call takes one of seven ways through the body of [Validate]. *)
Lemma Validate_ways (r : Receiver) (request : FormRequest)
    (st : State Fields) :
  let run := Validate json_Unmarshal validation_Struct r request st in
  (invalid_target request = true ∧
   run = ({| target := target st; separate := separate st; req := req st;
             log := log st ++ [TypeCheck] |},
          Returned (Some InvalidTargetError))) ∨
  (invalid_target request = false ∧
   ((∃ e, io.fault (Body (req st)) = Some e ∧
          run = ({| target := target st; separate := separate st;
                    req := {| URL := URL (req st);
                              Body := (io.ReadAll (Body (req st))).1 |};
                    log := log st ++ [TypeCheck; BodyRead] |},
                 Returned (Some e))) ∨
    (io.fault (Body (req st)) = None ∧
     ∃ t1 e1,
       json_Unmarshal (io.unread (Body (req st))) (target st) = (t1, e1) ∧
       match e1 with
       | Some e => run = (left_after 3 t1 st, Returned (Some e))
       | None =>
           ∃ t2 e2, PrepareForValidation t1 = (t2, e2) ∧
           match e2 with
           | Some e => run = (left_after 4 t2 st, Returned (Some e))
           | None =>
               ∃ t3 e3, WithValidator t2 = (t3, e3) ∧
               match e3 with
               | Some e => run = (left_after 5 t3 st, Returned (Some e))
               | None =>
                   ∃ t4 rules t5 e5,
                     Rules t3 = (t4, rules) ∧
                     validation_Struct t4 rules = (t5, e5) ∧
                     match e5 with
                     | Some e => run = (left_after 6 t5 st, Returned (Some e))
                     | None =>
                         ∃ v, ParseQuery (load r (left_after 7 t5 st)) (req st)
                              = Some v ∧
                              run = (store r v (left_after 7 t5 st),
                                     Returned None)
                     end
               end
           end
       end))).
Proof.
  cbv zeta.
  destruct (invalid_target request) eqn:Hinv.
  { left. split; [done|]. apply Validate_invalid. intros ->. discriminate. }
  right. split; [done|]. apply rejected_iff_not_pointer in Hinv as ->.
  destruct (io.fault (Body (req st))) as [e0|] eqn:Hread.
  { left. exists e0. split; [done|].
    rewrite (Validate_read_fault _ _ r st e0 Hread).
    by rewrite <- app_assoc. }
  right. split; [done|].
  destruct (json_Unmarshal (io.unread (Body (req st))) (target st))
    as [t1 e1] eqn:H1.
  exists t1, e1. split; [done|]. destruct e1 as [e|].
  { by apply Validate_decode_error. }
  destruct (PrepareForValidation t1) as [t2 e2] eqn:H2.
  exists t2, e2. split; [done|]. destruct e2 as [e|].
  { by eapply Validate_prepare_error. }
  destruct (WithValidator t2) as [t3 e3] eqn:H3.
  exists t3, e3. split; [done|]. destruct e3 as [e|].
  { by eapply Validate_hook_error. }
  destruct (Rules t3) as [t4 rules] eqn:H4.
  destruct (validation_Struct t4 rules) as [t5 e5] eqn:H5.
  exists t4, rules, t5, e5. split; [done|]. split; [done|].
  destruct e5 as [e|].
  { by eapply Validate_rule_error. }
  destruct (ParseQuery_lookup (load r (left_after 7 t5 st)) (req st))
    as (v & Hv & _).
  exists v. split; [done|]. by eapply Validate_success.
Qed.

(** X6.  When reading the body faults, [Validate] returns that fault
    as it is.  Only the type check and the read ran: the decoder was not
    called and the form is untouched.  The stream was read to its end
    once, and its closed flag is as it was, since the return of line 70
    comes before the [defer] of line 72. *)
Theorem read_fault_is_returned (r : Receiver) (request : FormRequest)
    (st : State Fields) (e : error) :
  invalid_target request = false →
  io.fault (Body (req st)) = Some e →
  let out := Validate json_Unmarshal validation_Struct r request st in
  out.2 = Returned (Some e) ∧
  target out.1 = target st ∧
  separate out.1 = separate st ∧
  log out.1 = log st ++ [TypeCheck; BodyRead] ∧
  io.drained (Body (req out.1)) = S (io.drained (Body (req st))) ∧
  io.closed (Body (req out.1)) = io.closed (Body (req st)).
Proof.
  intros ->%rejected_iff_not_pointer Hread. cbv zeta.
  rewrite (Validate_read_fault _ _ r st e Hread). cbn.
  by rewrite <- app_assoc.
Qed.

(** X7.  When [PrepareForValidation] fails on the decoded form,
    [Validate] returns its error as it is; [WithValidator], [Rules] and
    the validator are not called; the form is left as the hook left it,
    and the body is closed. *)
Theorem prepare_error_is_returned (r : Receiver) (request : FormRequest)
    (st : State Fields) (t1 t2 : Form Fields) (e : error) :
  invalid_target request = false →
  io.fault (Body (req st)) = None →
  json_Unmarshal (io.unread (Body (req st))) (target st) = (t1, None) →
  PrepareForValidation t1 = (t2, Some e) →
  let out := Validate json_Unmarshal validation_Struct r request st in
  out.2 = Returned (Some e) ∧
  target out.1 = t2 ∧
  separate out.1 = separate st ∧
  log out.1 = log st ++ [TypeCheck; BodyRead; Decode; Prepare] ∧
  io.closed (Body (req out.1)) = true.
Proof.
  intros ->%rejected_iff_not_pointer Hread H1 H2. cbv zeta.
  by rewrite (Validate_prepare_error _ _ r st Hread t1 t2 e H1 H2).
Qed.

(** X8.  When [WithValidator] fails on the prepared form, [Validate]
    returns its error as it is; [Rules] and the validator are not
    called; the form is left as the hook left it, and the body is
    closed. *)
Theorem hook_error_is_returned (r : Receiver) (request : FormRequest)
    (st : State Fields) (t1 t2 t3 : Form Fields) (e : error) :
  invalid_target request = false →
  io.fault (Body (req st)) = None →
  json_Unmarshal (io.unread (Body (req st))) (target st) = (t1, None) →
  PrepareForValidation t1 = (t2, None) →
  WithValidator t2 = (t3, Some e) →
  let out := Validate json_Unmarshal validation_Struct r request st in
  out.2 = Returned (Some e) ∧
  target out.1 = t3 ∧
  separate out.1 = separate st ∧
  log out.1 = log st ++ [TypeCheck; BodyRead; Decode; Prepare; Hook] ∧
  io.closed (Body (req out.1)) = true.
Proof.
  intros ->%rejected_iff_not_pointer Hread H1 H2 H3. cbv zeta.
  by rewrite (Validate_hook_error _ _ r st Hread t1 t2 t3 e H1 H2 H3).
Qed.

(** X9.  When the validator rejects the form under the rules that
    [Rules] gave, [Validate] returns the validator's error as it is.
    Nothing is rolled back: the form holds what the decoder, the two
    hooks, [Rules] and the validator left in it, and the body is
    closed. *)
Theorem rule_error_is_returned (r : Receiver) (request : FormRequest)
    (st : State Fields) (t1 t2 t3 t4 t5 : Form Fields)
    (rules : gmap string Rule) (e : error) :
  invalid_target request = false →
  io.fault (Body (req st)) = None →
  json_Unmarshal (io.unread (Body (req st))) (target st) = (t1, None) →
  PrepareForValidation t1 = (t2, None) →
  WithValidator t2 = (t3, None) →
  Rules t3 = (t4, rules) →
  validation_Struct t4 rules = (t5, Some e) →
  let out := Validate json_Unmarshal validation_Struct r request st in
  out.2 = Returned (Some e) ∧
  target out.1 = t5 ∧
  separate out.1 = separate st ∧
  log out.1
    = log st ++ [TypeCheck; BodyRead; Decode; Prepare; Hook; RuleValidate] ∧
  io.closed (Body (req out.1)) = true.
Proof.
  intros ->%rejected_iff_not_pointer Hread H1 H2 H3 H4 H5. cbv zeta.
  by rewrite (Validate_rule_error _ _ r st Hread t1 t2 t3 t4 t5 rules e
                H1 H2 H3 H4 H5).
Qed.

(** X10.  [Validate] makes up one error only, the one of line 64.  Any
    other error it returns is the fault of the body stream or the error
    that the decoder, a hook or the validator returned, unwrapped. *)
Theorem returned_error_has_a_source (r : Receiver) (request : FormRequest)
    (st st' : State Fields) (e : error) :
  Validate json_Unmarshal validation_Struct r request st
    = (st', Returned (Some e)) →
  (invalid_target request = true ∧ e = InvalidTargetError) ∨
  io.fault (Body (req st)) = Some e ∨
  (∃ t, (json_Unmarshal (io.unread (Body (req st))) t).2 = Some e) ∨
  (∃ t, (PrepareForValidation t).2 = Some e) ∨
  (∃ t, (WithValidator t).2 = Some e) ∨
  (∃ t rules, (validation_Struct t rules).2 = Some e).
Proof.
  intros Hrun.
  destruct (Validate_ways r request st) as [[Hinv Hway]|[Hinv Hway]];
    cbv zeta in Hway.
  { rewrite Hway in Hrun. injection Hrun as _ <-. by left. }
  destruct Hway as [(e0 & Hread & Hway)|(Hread & t1 & e1 & H1 & Hway)].
  { rewrite Hway in Hrun. injection Hrun as _ <-. by right; left. }
  destruct e1 as [e1|].
  { rewrite Hway in Hrun. injection Hrun as _ <-.
    right; right; left. exists (target st). by rewrite H1. }
  destruct Hway as (t2 & e2 & H2 & Hway). destruct e2 as [e2|].
  { rewrite Hway in Hrun. injection Hrun as _ <-.
    right; right; right; left. exists t1. by rewrite H2. }
  destruct Hway as (t3 & e3 & H3 & Hway). destruct e3 as [e3|].
  { rewrite Hway in Hrun. injection Hrun as _ <-.
    right; right; right; right; left. exists t2. by rewrite H3. }
  destruct Hway as (t4 & rules & t5 & e5 & H4 & H5 & Hway).
  destruct e5 as [e5|].
  { rewrite Hway in Hrun. injection Hrun as _ <-.
    right; right; right; right; right. exists t4, rules. by rewrite H5. }
  destruct Hway as (v & _ & Hway). rewrite Hway in Hrun. discriminate Hrun.
Qed.

(** X11.  [Validate] returns nil only when every stage passed: the
    target is a non-nil pointer, the body was read without a fault, and
    the decoder, both hooks and the validator, each run on what the one
    before left, returned no error.  All seven stages ran then, and the
    body is closed. *)
Theorem nil_means_every_stage_passed (r : Receiver) (request : FormRequest)
    (st st' : State Fields) :
  Validate json_Unmarshal validation_Struct r request st
    = (st', Returned None) →
  invalid_target request = false ∧
  io.fault (Body (req st)) = None ∧
  (∃ t1 t2 t3 t4 t5 rules,
     json_Unmarshal (io.unread (Body (req st))) (target st) = (t1, None) ∧
     PrepareForValidation t1 = (t2, None) ∧
     WithValidator t2 = (t3, None) ∧
     Rules t3 = (t4, rules) ∧
     validation_Struct t4 rules = (t5, None) ∧
     fields (target st') = fields t5) ∧
  log st' = log st ++ pipeline ∧
  io.closed (Body (req st')) = true.
Proof.
  intros Hrun.
  destruct (Validate_ways r request st) as [[Hinv Hway]|[Hinv Hway]];
    cbv zeta in Hway.
  { rewrite Hway in Hrun. discriminate Hrun. }
  destruct Hway as [(e0 & Hread & Hway)|(Hread & t1 & e1 & H1 & Hway)].
  { rewrite Hway in Hrun. discriminate Hrun. }
  destruct e1 as [e1|]; [rewrite Hway in Hrun; discriminate Hrun|].
  destruct Hway as (t2 & e2 & H2 & Hway).
  destruct e2 as [e2|]; [rewrite Hway in Hrun; discriminate Hrun|].
  destruct Hway as (t3 & e3 & H3 & Hway).
  destruct e3 as [e3|]; [rewrite Hway in Hrun; discriminate Hrun|].
  destruct Hway as (t4 & rules & t5 & e5 & H4 & H5 & Hway).
  destruct e5 as [e5|]; [rewrite Hway in Hrun; discriminate Hrun|].
  destruct Hway as (v & _ & Hway). rewrite Hway in Hrun.
  injection Hrun as <-.
  split; [done|]. split; [done|].
  split; [exists t1, t2, t3, t4, t5, rules; by destruct r|].
  by destruct r.
Qed.


End Validate_more.

(** ** The further properties on concrete runs *)

(** X6 on a stream that faults after its first bytes. *)
Lemma read_fault_is_returned_witness :
  let st : State Demo.Fields :=
    {| target := {| base := {| Query := None |}; fields := "" |};
       separate := {| Query := None |};
       req := {| URL := Demo.query;
                 Body := {| io.unread := Demo.body_named "a";
                            io.fault := Some (errors_New "unexpected EOF");
                            io.closed := false; io.drained := 0 |} |};
       log := [] |} in
  let out :=
    Validate Demo.json_Unmarshal Demo.validation_Struct Embedded Pointer st in
  out.2 = Returned (Some (errors_New "unexpected EOF")) ∧
  target out.1 = target st ∧
  io.closed (Body (req out.1)) = io.closed (Body (req st)).
Proof.
  cbv zeta.
  match goal with
  | |- context [Validate _ _ Embedded Pointer ?st] =>
      destruct (read_fault_is_returned Demo.json_Unmarshal
                  Demo.validation_Struct Embedded Pointer st
                  (errors_New "unexpected EOF"))
        as (Hret & Htarget & _ & _ & _ & Hclosed);
        [by_evaluation|by_evaluation|]
  end.
  split; [exact Hret|]. split; [exact Htarget|exact Hclosed].
Defined.

(** X7 on a form whose [PrepareForValidation] always fails. *)
Lemma prepare_error_is_returned_witness :
  let methods : FormMethods Demo.Fields Demo.Rule :=
    {| Rules f := (f, ∅);
       PrepareForValidation f := (f, Some (errors_New "not normal"));
       WithValidator f := (f, None) |} in
  let st := Demo.start (Demo.body_named "a") in
  let out :=
    @Validate Demo.Fields Demo.Rule methods Demo.json_Unmarshal
      Demo.validation_Struct Embedded Pointer st in
  out.2 = Returned (Some (errors_New "not normal")) ∧
  log out.1 = log st ++ [TypeCheck; BodyRead; Decode; Prepare].
Proof.
  cbv zeta.
  match goal with
  | |- context [@Validate _ _ ?m _ _ Embedded Pointer ?st] =>
      destruct (@prepare_error_is_returned Demo.Fields Demo.Rule m
                  Demo.json_Unmarshal Demo.validation_Struct Embedded Pointer
                  st {| base := {| Query := None |}; fields := "a" |}
                  {| base := {| Query := None |}; fields := "a" |}
                  (errors_New "not normal"))
        as (Hret & _ & _ & Hlog & _);
        [by_evaluation|by_evaluation|by_evaluation|by_evaluation|]
  end.
  split; [exact Hret|exact Hlog].
Defined.

(** X8 on a form whose [WithValidator] always fails. *)
Lemma hook_error_is_returned_witness :
  let methods : FormMethods Demo.Fields Demo.Rule :=
    {| Rules f := (f, ∅);
       PrepareForValidation f := (f, None);
       WithValidator f := (f, Some (errors_New "fields disagree")) |} in
  let st := Demo.start (Demo.body_named "a") in
  let out :=
    @Validate Demo.Fields Demo.Rule methods Demo.json_Unmarshal
      Demo.validation_Struct Embedded Pointer st in
  out.2 = Returned (Some (errors_New "fields disagree")) ∧
  log out.1 = log st ++ [TypeCheck; BodyRead; Decode; Prepare; Hook].
Proof.
  cbv zeta.
  match goal with
  | |- context [@Validate _ _ ?m _ _ Embedded Pointer ?st] =>
      destruct (@hook_error_is_returned Demo.Fields Demo.Rule m
                  Demo.json_Unmarshal Demo.validation_Struct Embedded Pointer
                  st {| base := {| Query := None |}; fields := "a" |}
                  {| base := {| Query := None |}; fields := "a" |}
                  {| base := {| Query := None |}; fields := "a" |}
                  (errors_New "fields disagree"))
        as (Hret & _ & _ & Hlog & _);
        [by_evaluation|by_evaluation|by_evaluation|by_evaluation
        |by_evaluation|]
  end.
  split; [exact Hret|exact Hlog].
Defined.

(** X9 on the sign-up form with an empty name. *)
Lemma rule_error_is_returned_witness :
  let st := Demo.start (Demo.body_named "") in
  let out :=
    Validate Demo.json_Unmarshal Demo.validation_Struct Embedded Pointer st in
  out.2 = Returned (Some Demo.NameRequired) ∧
  target out.1 = {| base := {| Query := None |}; fields := "" |} ∧
  io.closed (Body (req out.1)) = true.
Proof.
  cbv zeta.
  pose (t := {| base := {| Query := None |}; fields := "" |}
             : Form Demo.Fields).
  destruct (rule_error_is_returned Demo.json_Unmarshal Demo.validation_Struct
              Embedded Pointer (Demo.start (Demo.body_named ""))
              t t t t t {[ "name" := Demo.Required ]} Demo.NameRequired)
    as (Hret & Htarget & _ & _ & Hclosed);
    [by_evaluation|by_evaluation|by_evaluation|by_evaluation|by_evaluation
    |by_evaluation|by_evaluation|].
  split; [exact Hret|]. split; [exact Htarget|exact Hclosed].
Defined.

(** X10 on the same run: the error is the validator's. *)
Lemma returned_error_has_a_source_witness :
  let st := Demo.start (Demo.body_named "") in
  (invalid_target Pointer = true ∧ Demo.NameRequired = InvalidTargetError) ∨
  io.fault (Body (req st)) = Some Demo.NameRequired ∨
  (∃ t, (Demo.json_Unmarshal (io.unread (Body (req st))) t).2
        = Some Demo.NameRequired) ∨
  (∃ t, (PrepareForValidation t).2 = Some Demo.NameRequired) ∨
  (∃ t, (WithValidator t).2 = Some Demo.NameRequired) ∨
  (∃ t rules, (Demo.validation_Struct t rules).2 = Some Demo.NameRequired).
Proof.
  cbv zeta.
  apply (returned_error_has_a_source Demo.json_Unmarshal
           Demo.validation_Struct Embedded Pointer
           (Demo.start (Demo.body_named ""))
           (Validate Demo.json_Unmarshal Demo.validation_Struct
              Embedded Pointer (Demo.start (Demo.body_named ""))).1).
  by_evaluation.
Defined.

(** X11 on the end-to-end example. *)
Lemma nil_means_every_stage_passed_witness :
  let st := Demo.start (Demo.body_named "a") in
  let out :=
    Validate Demo.json_Unmarshal Demo.validation_Struct Embedded Pointer st in
  io.fault (Body (req st)) = None ∧
  log out.1 = log st ++ pipeline ∧
  io.closed (Body (req out.1)) = true.
Proof.
  cbv zeta.
  destruct (nil_means_every_stage_passed Demo.json_Unmarshal
              Demo.validation_Struct Embedded Pointer
              (Demo.start (Demo.body_named "a"))
              (Validate Demo.json_Unmarshal Demo.validation_Struct
                 Embedded Pointer (Demo.start (Demo.body_named "a"))).1)
    as (_ & Hread & _ & Hlog & Hclosed); [by_evaluation|].
  split; [exact Hread|]. split; [exact Hlog|exact Hclosed].
Defined.
